(** * The state-serialization surface of the ALE C interface (ale.h)

    ale.h declares the C entry points of the Arcade Learning Environment
    used by this package.  The header documents the behaviour of exactly
    one group of them, the snapshot encoding (ale.h, lines 57-62):

      // Encodes the state as a raw bytestream. This may have multiple '\0'
      // characters and thus should not be treated as a C string. Use
      // encodeStateLen to find the length of the buffer to pass in, or it
      // will be overrun as this simply memcpys bytes into the buffer.
      void encodeState(ALEState *state, char *buf, int buf_len);
      int encodeStateLen(ALEState *state);
      ALEState *decodeState(const char *serialized, int len);

    The state's byte serialization and its inverse belong to the emulator
    library behind the header; they are section variables here.  C memory
    is a total map from addresses to bytes. *)

From Stdlib Require Import ZArith List Lia Bool Strings.Byte.
Import ListNotations.
Open Scope Z_scope.

(** The char cells of the address space. *)
Definition mem := Z -> byte.

(** [memcpy(dst, src, n)] with [n = length src]: the cells
    [dst .. dst + n - 1] receive [src], every other cell is untouched. *)
Definition memcpy (m : mem) (dst : Z) (src : list byte) : mem :=
  fun a =>
    if (dst <=? a) && (a <? dst + Z.of_nat (length src))
    then nth (Z.to_nat (a - dst)) src x00
    else m a.

(** The [n] bytes starting at [p], as a callee taking [(const char *p, n)]
    reads them. *)
Definition read_bytes (m : mem) (p : Z) (n : nat) : list byte :=
  map (fun k => m (p + Z.of_nat k)) (seq 0 n).

(** [strlen(p)]: the number of cells before the first ['\0'] from [p],
    looking at no more than [fuel] cells. *)
Fixpoint strlen_fuel (fuel : nat) (m : mem) (p : Z) : nat :=
  match fuel with
  | O => O
  | S f => if Byte.eqb (m p) x00 then O else S (strlen_fuel f m (p + 1))
  end.

(** Index of the first ['\0'] of a byte list (its length if there is none). *)
Fixpoint first_nul (l : list byte) : nat :=
  match l with
  | [] => O
  | b :: l' => if Byte.eqb b x00 then O else S (first_nul l')
  end.

Module ALE_C.
Section Encoding.

(** [ALEState], opaque to the C side ([typedef void* ALEState]). *)
Variable ALEState : Type.
(** The emulator library's serialization of a state, and its decoder. *)
Variable serialize : ALEState -> list byte.
Variable deserialize : list byte -> ALEState.

(** [int encodeStateLen(ALEState *state)]: the byte length of the stream. *)
Definition encodeStateLen (st : ALEState) : Z :=
  Z.of_nat (length (serialize st)).

(** [void encodeState(ALEState *state, char *buf, int buf_len)]: "simply
    memcpys bytes into the buffer"; [buf_len] is not consulted, and the
    function has no result. *)
Definition encodeState (st : ALEState) (buf buf_len : Z) (m : mem) : mem :=
  memcpy m buf (serialize st).

(** [ALEState *decodeState(const char *serialized, int len)]: decodes the
    [len] bytes at [serialized]. *)
Definition decodeState (m : mem) (serialized len : Z) : ALEState :=
  deserialize (read_bytes m serialized (Z.to_nat len)).

End Encoding.
End ALE_C.

Arguments ALE_C.encodeStateLen {ALEState} serialize st.
Arguments ALE_C.encodeState {ALEState} serialize st buf buf_len m _.
Arguments ALE_C.decodeState {ALEState} deserialize m serialized len.

(** ** Memory lemmas *)

Lemma memcpy_in (m : mem) (dst : Z) (src : list byte) (k : nat) :
  (k < length src)%nat -> memcpy m dst src (dst + Z.of_nat k) = nth k src x00.
Proof.
  intros Hk. unfold memcpy.
  replace ((dst <=? dst + Z.of_nat k) && (dst + Z.of_nat k <? dst + Z.of_nat (length src)))
    with true by (symmetry; apply andb_true_intro; split; [apply Z.leb_le | apply Z.ltb_lt]; lia).
  f_equal. lia.
Qed.

Lemma memcpy_out (m : mem) (dst : Z) (src : list byte) (a : Z) :
  a < dst \/ dst + Z.of_nat (length src) <= a -> memcpy m dst src a = m a.
Proof.
  intros Ha. unfold memcpy.
  destruct (dst <=? a) eqn:E1, (a <? dst + Z.of_nat (length src)) eqn:E2; simpl; try reflexivity.
  apply Z.leb_le in E1. apply Z.ltb_lt in E2. lia.
Qed.

Lemma read_bytes_memcpy_firstn (m : mem) (dst : Z) (src : list byte) (n : nat) :
  (n <= length src)%nat -> read_bytes (memcpy m dst src) dst n = firstn n src.
Proof.
  intros Hn. unfold read_bytes.
  apply nth_ext with (d := x00) (d' := x00).
  - rewrite length_map, length_seq, length_firstn. lia.
  - intros k Hk. rewrite length_map, length_seq in Hk.
    set (f := fun k0 : nat => memcpy m dst src (dst + Z.of_nat k0)).
    rewrite (nth_indep _ x00 (f 0%nat)) by (rewrite length_map, length_seq; exact Hk).
    rewrite map_nth, seq_nth by exact Hk. unfold f. simpl.
    rewrite memcpy_in by lia.
    rewrite nth_firstn. destruct (k <? n)%nat eqn:E; [reflexivity | apply Nat.ltb_ge in E; lia].
Qed.

Lemma read_bytes_memcpy (m : mem) (dst : Z) (src : list byte) :
  read_bytes (memcpy m dst src) dst (length src) = src.
Proof.
  rewrite read_bytes_memcpy_firstn by lia. apply firstn_all.
Qed.

Lemma first_nul_lt (l : list byte) : In x00 l -> (first_nul l < length l)%nat.
Proof.
  induction l as [|b l IH]; simpl; intros Hin; [contradiction |].
  destruct (Byte.eqb b x00) eqn:E; [lia |].
  destruct Hin as [-> | Hin]; [discriminate E |]. specialize (IH Hin). lia.
Qed.

Lemma strlen_fuel_first_nul (l : list byte) :
  forall (m : mem) (p : Z) (fuel : nat),
    (forall k, (k < length l)%nat -> m (p + Z.of_nat k) = nth k l x00) ->
    In x00 l -> (length l <= fuel)%nat ->
    strlen_fuel fuel m p = first_nul l.
Proof.
  induction l as [|b l IH]; intros m p fuel Hm Hin Hf; [contradiction |].
  destruct fuel as [|fuel]; simpl in Hf; [lia |].
  simpl. assert (Hp : m p = b) by (rewrite <- (Z.add_0_r p); apply (Hm 0%nat); simpl; lia).
  rewrite Hp. destruct (Byte.eqb b x00) eqn:E; [reflexivity |].
  f_equal. apply IH; [| destruct Hin as [-> | Hin]; [discriminate E | exact Hin] | lia].
  intros k Hk. replace (p + 1 + Z.of_nat k) with (p + Z.of_nat (S k)) by lia.
  apply (Hm (S k)). simpl. lia.
Qed.

(** ** Claims *)

(** C2 (amended): [encodeStateLen st] is the length [L] of the stream and
    [encodeState st buf buf_len] writes exactly that stream: the [L] cells
    from [buf] receive it and no other cell changes.  [buf_len] plays no
    part, and the function has no failure result: with [buf_len = L] the
    buffer is filled exactly, with [buf_len < L] the cells
    [buf + buf_len .. buf + L - 1] past the buffer are overwritten. *)
Theorem encodeState_writes_exactly_encodeStateLen_bytes :
  forall (ALEState : Type) (serialize : ALEState -> list byte)
         (st : ALEState) (buf buf_len : Z) (m : mem),
    let L := ALE_C.encodeStateLen serialize st in
    let m' := ALE_C.encodeState serialize st buf buf_len m in
    L = Z.of_nat (length (serialize st)) /\
    read_bytes m' buf (Z.to_nat L) = serialize st /\
    (forall k, (k < length (serialize st))%nat ->
               m' (buf + Z.of_nat k) = nth k (serialize st) x00) /\
    (forall a, a < buf \/ buf + L <= a -> m' a = m a) /\
    (forall buf_len', ALE_C.encodeState serialize st buf buf_len' m = m').
Proof.
  intros ALEState serialize st buf buf_len m L m'.
  subst L m'. unfold ALE_C.encodeStateLen, ALE_C.encodeState.
  split; [reflexivity |]. split; [rewrite Nat2Z.id; apply read_bytes_memcpy |].
  split; [intros k Hk; apply memcpy_in; exact Hk |].
  split; [intros a Ha; apply memcpy_out; exact Ha | reflexivity].
Qed.

(** C2 (counterexample): a buffer one byte short does not make [encodeState]
    fail without writing: for the three-byte stream [01 00 02] copied to a
    two-byte buffer at address 0 of a zeroed memory, the cell at address 2,
    just past the buffer, is overwritten. *)
Lemma encodeState_short_buffer_overruns :
  ~ (forall (st : list byte) (buf buf_len : Z) (m : mem),
       buf_len = ALE_C.encodeStateLen id st - 1 ->
       forall a, buf + buf_len <= a -> ALE_C.encodeState id st buf buf_len m a = m a).
Proof.
  intros H.
  specialize (H [x01; x00; x02] 0 2 (fun _ => x00) eq_refl 2 ltac:(lia)).
  vm_compute in H. discriminate H.
Qed.

(** C10: the stream is length-delimited.  When it contains a ['\0'] byte,
    [strlen] on the buffer [encodeState] filled stops at the first one,
    short of [encodeStateLen]; the bytes handed to [decodeState] with that
    length are a proper prefix of the stream, not the stream, whereas with
    [encodeStateLen] [decodeState] reads back the stream itself. *)
Theorem encoded_stream_is_not_a_c_string :
  forall (ALEState : Type) (serialize : ALEState -> list byte)
         (deserialize : list byte -> ALEState)
         (st : ALEState) (buf buf_len : Z) (m : mem) (fuel : nat),
    In x00 (serialize st) ->
    (length (serialize st) <= fuel)%nat ->
    let m' := ALE_C.encodeState serialize st buf buf_len m in
    let n := strlen_fuel fuel m' buf in
    Z.of_nat n < ALE_C.encodeStateLen serialize st /\
    read_bytes m' buf n = firstn n (serialize st) /\
    firstn n (serialize st) <> serialize st /\
    ALE_C.decodeState deserialize m' buf (Z.of_nat n)
      = deserialize (firstn n (serialize st)) /\
    ALE_C.decodeState deserialize m' buf (ALE_C.encodeStateLen serialize st)
      = deserialize (serialize st).
Proof.
  intros ALEState serialize deserialize st buf buf_len m fuel Hin Hfuel m' n.
  assert (Hn : n = first_nul (serialize st)).
  { subst n m'. unfold ALE_C.encodeState.
    apply strlen_fuel_first_nul; [| exact Hin | exact Hfuel].
    intros k Hk. apply memcpy_in. exact Hk. }
  pose proof (first_nul_lt _ Hin) as Hlt. rewrite <- Hn in Hlt.
  assert (Hpre : read_bytes m' buf n = firstn n (serialize st)).
  { subst m'. unfold ALE_C.encodeState. apply read_bytes_memcpy_firstn. lia. }
  unfold ALE_C.encodeStateLen, ALE_C.decodeState.
  split; [lia |]. split; [exact Hpre |].
  split.
  { intros Heq. apply (f_equal (@length byte)) in Heq.
    rewrite length_firstn in Heq. lia. }
  split; [rewrite Nat2Z.id; rewrite Hpre; reflexivity |].
  rewrite Nat2Z.id. subst m'. unfold ALE_C.encodeState.
  rewrite read_bytes_memcpy. reflexivity.
Qed.

(** Witness of C10: the stream [41 00 42] written at address 16. *)
Lemma encoded_stream_is_not_a_c_string_witness :
  In x00 [x41; x00; x42] /\ (length [x41; x00; x42] <= 3)%nat /\
  Z.of_nat (strlen_fuel 3 (ALE_C.encodeState id [x41; x00; x42] 16 3 (fun _ => x00)) 16)
    < ALE_C.encodeStateLen id [x41; x00; x42].
Proof.
  split; [simpl; auto |]. split; [simpl; lia |].
  exact (proj1 (encoded_stream_is_not_a_c_string (list byte) id id [x41; x00; x42] 16 3
                  (fun _ => x00) 3 ltac:(simpl; auto) ltac:(simpl; lia))).
Defined.

(** ** Further properties of the encoding surface *)

Lemma read_bytes_ext (m1 m2 : mem) (p : Z) (n : nat) :
  (forall k, (k < n)%nat -> m1 (p + Z.of_nat k) = m2 (p + Z.of_nat k)) ->
  read_bytes m1 p n = read_bytes m2 p n.
Proof.
  intros H. unfold read_bytes. apply map_ext_in.
  intros k Hk. apply in_seq in Hk. apply H. lia.
Qed.

(** Encoding a state into a buffer and decoding the buffer with
    [encodeStateLen] hands the decoder exactly the state's serialization,
    whatever the memory held before and whatever [buf_len] was passed. *)
Theorem decodeState_encodeState_bytes :
  forall (ALEState : Type) (serialize : ALEState -> list byte)
         (deserialize : list byte -> ALEState)
         (st : ALEState) (buf buf_len : Z) (m : mem),
    ALE_C.decodeState deserialize (ALE_C.encodeState serialize st buf buf_len m)
      buf (ALE_C.encodeStateLen serialize st)
    = deserialize (serialize st).
Proof.
  intros. unfold ALE_C.decodeState, ALE_C.encodeState, ALE_C.encodeStateLen.
  rewrite Nat2Z.id, read_bytes_memcpy. reflexivity.
Qed.

(** Two states encoded one after the other into non-overlapping buffers both
    decode back: the second [encodeState] leaves the first buffer's bytes
    alone, as long as the regions of [encodeStateLen] bytes do not overlap. *)
Theorem encodeState_disjoint_buffers_decode :
  forall (ALEState : Type) (serialize : ALEState -> list byte)
         (deserialize : list byte -> ALEState)
         (st1 st2 : ALEState) (buf1 len1 buf2 len2 : Z) (m : mem),
    buf1 + ALE_C.encodeStateLen serialize st1 <= buf2 \/
    buf2 + ALE_C.encodeStateLen serialize st2 <= buf1 ->
    let m' := ALE_C.encodeState serialize st2 buf2 len2
                (ALE_C.encodeState serialize st1 buf1 len1 m) in
    ALE_C.decodeState deserialize m' buf1 (ALE_C.encodeStateLen serialize st1)
      = deserialize (serialize st1) /\
    ALE_C.decodeState deserialize m' buf2 (ALE_C.encodeStateLen serialize st2)
      = deserialize (serialize st2).
Proof.
  intros ALEState serialize deserialize st1 st2 buf1 len1 buf2 len2 m Hdis m'.
  subst m'. split.
  - unfold ALE_C.decodeState. f_equal.
    unfold ALE_C.encodeStateLen in *. rewrite Nat2Z.id.
    transitivity (read_bytes (ALE_C.encodeState serialize st1 buf1 len1 m) buf1
                    (length (serialize st1))).
    + apply read_bytes_ext. intros k Hk.
      unfold ALE_C.encodeState at 1. apply memcpy_out. lia.
    + unfold ALE_C.encodeState. apply read_bytes_memcpy.
  - apply decodeState_encodeState_bytes.
Qed.

(** Witness: a three-byte and a two-byte stream in adjacent buffers. *)
Lemma encodeState_disjoint_buffers_decode_witness :
  0 + ALE_C.encodeStateLen (@id (list byte)) [x01; x00; x02] <= 3 /\
  ALE_C.decodeState id
    (ALE_C.encodeState id [x07; x00] 3 2 (ALE_C.encodeState id [x01; x00; x02] 0 3 (fun _ => xff)))
    0 (ALE_C.encodeStateLen id [x01; x00; x02]) = [x01; x00; x02].
Proof.
  split; [vm_compute; discriminate |].
  exact (proj1 (encodeState_disjoint_buffers_decode (list byte) id id
                  [x01; x00; x02] [x07; x00] 0 3 3 2 (fun _ => xff)
                  ltac:(left; vm_compute; discriminate))).
Defined.
